(** * Context-aware interruption handler: a shallow embedding

    Model of [livekit/agents/voice/interruption_handler.py]: text
    normalisation, phrase matching, the acknowledgement-only check, the
    engagement and satisfaction trackers and [InterruptionHandler.classify].

    Strings are Rocq [string]s whose 8-bit characters are read as the
    Latin-1 code points U+0000..U+00FF of a Python [str]; the character
    classes below ([\w], [\s], [str.lower]) are Python's on that range.
    Python [float]s (scores, timestamps) are modelled as exact rationals [Q].
    A Python [set] of phrases is modelled as the list of its elements in
    iteration order. *)

From Stdlib Require Import Bool List Ascii String NArith QArith Qabs Qminmax Lqa.
Import ListNotations.
Open Scope string_scope.

(* ------------------------------------------------------------------ *)
(** ** Character classes (Python [re] / [str] on Latin-1) *)

Definition code (c : ascii) : N := N_of_ascii c.

Definition in_range (lo hi : N) (c : ascii) : bool :=
  (lo <=? code c)%N && (code c <=? hi)%N.

(** [str.isspace] and [re]'s [\s]: 9..13, 28..32, U+0085, U+00A0. *)
Definition is_space (c : ascii) : bool :=
  in_range 9 13 c || in_range 28 32 c || (code c =? 133)%N || (code c =? 160)%N.

(** [re]'s [\w]: [str.isalnum] or underscore. *)
Definition is_word (c : ascii) : bool :=
  in_range 48 57 c || in_range 65 90 c || (code c =? 95)%N || in_range 97 122 c
  || (code c =? 170)%N || in_range 178 179 c || (code c =? 181)%N
  || in_range 185 186 c || in_range 188 190 c || in_range 192 214 c
  || in_range 216 246 c || in_range 248 255 c.

(** [str.lower] on one character. *)
Definition lower_char (c : ascii) : ascii :=
  if in_range 65 90 c || in_range 192 214 c || in_range 216 222 c
  then ascii_of_N (code c + 32) else c.

Definition is_hyphen (c : ascii) : bool := Ascii.eqb c "-"%char.

Definition is_empty (s : string) : bool :=
  match s with EmptyString => true | _ => false end.

(* ------------------------------------------------------------------ *)
(** ** [_normalize_text] *)

Fixpoint lower (s : string) : string :=
  match s with
  | EmptyString => EmptyString
  | String c s' => String (lower_char c) (lower s')
  end.

Fixpoint lstrip (s : string) : string :=
  match s with
  | EmptyString => EmptyString
  | String c s' => if is_space c then lstrip s' else s
  end.

Fixpoint rstrip (s : string) : string :=
  match s with
  | EmptyString => EmptyString
  | String c s' =>
      let r := rstrip s' in
      if is_space c && is_empty r then EmptyString else String c r
  end.

(** [str.strip()] *)
Definition strip (s : string) : string := rstrip (lstrip s).

(** [re.sub(r"[^\w\s-]", " ", text)] *)
Fixpoint sub_punct (s : string) : string :=
  match s with
  | EmptyString => EmptyString
  | String c s' =>
      String (if is_word c || is_space c || is_hyphen c then c else " "%char)
             (sub_punct s')
  end.

Definition next_is_word (s : string) : bool :=
  match s with EmptyString => false | String c _ => is_word c end.

(** [re.sub(r"(?<!\w)-|-(?!\w)", " ", text)]: [prev_word] tells whether the
    character before [s] in the original string is a word character; the
    lookarounds read the original string. *)
Fixpoint sub_hyphens (prev_word : bool) (s : string) : string :=
  match s with
  | EmptyString => EmptyString
  | String c s' =>
      String (if is_hyphen c && negb (prev_word && next_is_word s') then " "%char else c)
             (sub_hyphens (is_word c) s')
  end.

(** [re.sub(r"\s+", " ", text)]: [in_run] tells whether the previous
    character belonged to a whitespace run already replaced. *)
Fixpoint collapse_ws (in_run : bool) (s : string) : string :=
  match s with
  | EmptyString => EmptyString
  | String c s' =>
      if is_space c
      then (if in_run then collapse_ws true s' else String " " (collapse_ws true s'))
      else String c (collapse_ws false s')
  end.

Definition normalize_text (text : string) : string :=
  if is_empty text then "" else
  let text := strip (lower text) in
  let text := sub_punct text in
  let text := sub_hyphens false text in
  let text := collapse_ws false text in
  strip text.

(* ------------------------------------------------------------------ *)
(** ** Substrings, [str.split()], [str.replace] *)

Fixpoint prefixb (p s : string) : bool :=
  match p, s with
  | EmptyString, _ => true
  | String a p', String b s' => Ascii.eqb a b && prefixb p' s'
  | _, _ => false
  end.

(** Python's [p in s] on strings. *)
Fixpoint contains (p s : string) : bool :=
  prefixb p s || match s with EmptyString => false | String _ s' => contains p s' end.

(** [" " in phrase] *)
Definition has_space (p : string) : bool := contains " " p.

(** [str.split()] with no separator: maximal runs of non-whitespace;
    [cur] is the token read so far. *)
Fixpoint split_go (cur s : string) : list string :=
  match s with
  | EmptyString => if is_empty cur then [] else [cur]
  | String c s' =>
      if is_space c
      then (if is_empty cur then split_go "" s' else cur :: split_go "" s')
      else split_go (cur ++ String c "") s'
  end.

Definition str_split (s : string) : list string := split_go "" s.

(** [_tokenize] *)
Definition tokenize (text : string) : list string :=
  if is_empty text then [] else str_split text.

(** [str.replace(old, new)] for a non-empty [old]: left-to-right,
    non-overlapping; [skip] counts characters of the last match still to
    be consumed. *)
Fixpoint replace_go (old new : string) (skip : nat) (s : string) : string :=
  match s with
  | EmptyString => EmptyString
  | String c s' =>
      match skip with
      | S k => replace_go old new k s'
      | O => if prefixb old s
             then new ++ replace_go old new (String.length old - 1) s'
             else String c (replace_go old new 0 s')
      end
  end.

(** [str.replace] with an empty [old] inserts [new] around every character. *)
Fixpoint interleave (new s : string) : string :=
  match s with
  | EmptyString => new
  | String c s' => new ++ String c (interleave new s')
  end.

Definition str_replace (old new s : string) : string :=
  if is_empty old then interleave new s else replace_go old new 0 s.

Definition mem (w : string) (set : list string) : bool := existsb (String.eqb w) set.

(* ------------------------------------------------------------------ *)
(** ** [_contains_any_phrase] and [_is_only_acknowledgements] *)

Definition contains_any_phrase (text : string) (phrases : list string)
  : bool * list string :=
  let multi := filter (fun phrase => has_space phrase && contains phrase text) phrases in
  let words := tokenize text in
  let single := filter (fun phrase => negb (has_space phrase) && mem phrase words) phrases in
  let found := (multi ++ single)%list in
  (negb (Nat.eqb (List.length found) 0), found).

Definition is_only_acknowledgements (text : string) (acknowledgements : list string) : bool :=
  if is_empty text then false else
  let remaining :=
    fold_left (fun remaining phrase =>
                 if has_space phrase then str_replace phrase " " remaining else remaining)
              acknowledgements text in
  let words := tokenize remaining in
  match words with
  | [] => true
  | _ =>
      let single_word_acks := filter (fun p => negb (has_space p)) acknowledgements in
      forallb (fun w => mem w single_word_acks) words
  end.

(* ------------------------------------------------------------------ *)
(** ** Default vocabularies (in source order) *)

Definition DEFAULT_PASSIVE_ACKNOWLEDGEMENTS : list string :=
  [ "yeah"; "yep"; "yup"; "yes";
    "ok"; "okay"; "k";
    "hmm"; "hmmm"; "mmm"; "mmmm"; "uh"; "uhh"; "um"; "umm";
    "uh-huh"; "uh huh"; "mm-hmm"; "mm hmm"; "mhm"; "mmhmm";
    "right"; "alright"; "i see"; "got it"; "gotcha";
    "sure"; "fine"; "cool"; "nice"; "good"; "great";
    "go on"; "continue"; "and" ].

Definition DEFAULT_INTERRUPT_COMMANDS : list string :=
  [ "stop"; "wait"; "pause"; "hold";
    "no"; "nope"; "cancel"; "never mind"; "nevermind";
    "hold on"; "listen"; "hey"; "excuse me";
    "let me speak"; "let me talk"; "my turn"; "actually";
    "wrong"; "incorrect"; "that's wrong"; "not right" ].

Definition DEFAULT_POSITIVE_INDICATORS : list string :=
  [ "yes"; "yeah"; "great"; "good"; "nice"; "perfect"; "works";
    "fine"; "awesome"; "excellent"; "wonderful"; "thanks"; "thank you";
    "helpful"; "correct"; "exactly"; "right"; "understood" ].

Definition DEFAULT_NEGATIVE_INDICATORS : list string :=
  [ "no"; "stop"; "wait"; "wrong"; "bad"; "problem"; "issue";
    "confusing"; "unclear"; "annoyed"; "frustrated"; "don't understand";
    "what"; "huh"; "repeat"; "again"; "slower" ].

(* ------------------------------------------------------------------ *)
(** ** Results and observational state *)

Inductive EngagementLevel := LOW | MEDIUM | HIGH.

Inductive InterruptionDecision := IGNORE | INTERRUPT | PROCESS.

(** The [reason] strings of [classify]; the two f-strings carry the match
    list they print. *)
Inductive Reason :=
| EmptyInput                                   (* "empty input" *)
| AgentSilent                                  (* "agent is silent, processing normally" *)
| InterruptCommandDetected (ms : list string)  (* f"interrupt command detected: {ms}" *)
| PassiveAckOnly (ms : list string)            (* f"passive acknowledgement only: {ms}" *)
| NonAckContent.                               (* "contains non-acknowledgement content" *)

Record InterruptionResult := mkResult {
  decision : InterruptionDecision;
  reason : Reason;
  normalized_text : string;
  detected_commands : list string;
  detected_acknowledgements : list string }.

Record EngagementState := mkEngagement {
  acknowledgement_timestamps : list Q;
  window_seconds : Q }.

Definition default_engagement : EngagementState := mkEngagement [] 8.

(** Every [time.time()] read is passed in as [now]. *)
Definition cleanup_old (now : Q) (e : EngagementState) : EngagementState :=
  let cutoff := now - window_seconds e in
  mkEngagement (filter (fun t => negb (Qle_bool t cutoff)) (acknowledgement_timestamps e))
               (window_seconds e).

Definition add_acknowledgement (now : Q) (e : EngagementState) : EngagementState :=
  cleanup_old now (mkEngagement (acknowledgement_timestamps e ++ [now]) (window_seconds e)).

Definition get_level (now : Q) (e : EngagementState) : EngagementLevel * EngagementState :=
  let e := cleanup_old now e in
  let count := List.length (acknowledgement_timestamps e) in
  (if Nat.leb 3 count then HIGH else if Nat.leb 1 count then MEDIUM else LOW, e).

Definition get_count (now : Q) (e : EngagementState) : nat * EngagementState :=
  let e := cleanup_old now e in
  (List.length (acknowledgement_timestamps e), e).

Record SatisfactionState := mkSatisfaction {
  score : Q;
  last_signal : string;
  last_text : string }.

Definition default_satisfaction : SatisfactionState := mkSatisfaction 0 "" "".

Definition POSITIVE_DELTA : Q := 15 # 100.
Definition NEGATIVE_DELTA : Q := 20 # 100.
Definition DECAY_RATE : Q := 5 # 100.

(** Python's two-argument [min] and [max]: the first argument wins ties. *)
Definition py_min (a b : Q) : Q := if Qle_bool a b then a else b.
Definition py_max (a b : Q) : Q := if Qle_bool b a then a else b.

(** [set(words) & indicators] is non-empty *)
Definition intersects (words indicators : list string) : bool :=
  existsb (fun w => mem w indicators) words.

Definition sat_update (text : string) (positive_indicators negative_indicators : list string)
  (s : SatisfactionState) : SatisfactionState :=
  let normalized := normalize_text text in
  let words := str_split normalized in
  let positive_found := intersects words positive_indicators in
  let negative_found := intersects words negative_indicators in
  if positive_found && negb negative_found then
    mkSatisfaction (py_min 1 (score s + POSITIVE_DELTA)) "positive" text
  else if negative_found then
    mkSatisfaction (py_max (-1) (score s - NEGATIVE_DELTA)) "negative" text
  else s.

Definition sat_decay (s : SatisfactionState) : SatisfactionState :=
  if negb (Qle_bool (Qabs (score s)) (1 # 100)) then
    if negb (Qle_bool (score s) 0)
    then mkSatisfaction (py_max 0 (score s - DECAY_RATE)) (last_signal s) (last_text s)
    else mkSatisfaction (py_min 0 (score s + DECAY_RATE)) (last_signal s) (last_text s)
  else s.

(* ------------------------------------------------------------------ *)
(** ** [InterruptionHandler] *)

Record InterruptionHandler := mkHandler {
  passive_acknowledgements : list string;
  interrupt_commands : list string;
  positive_indicators : list string;
  negative_indicators : list string;
  engagement_state : EngagementState;
  satisfaction_state : SatisfactionState }.

(** [InterruptionHandler()] with no environment overrides. *)
Definition default_handler : InterruptionHandler :=
  mkHandler DEFAULT_PASSIVE_ACKNOWLEDGEMENTS DEFAULT_INTERRUPT_COMMANDS
            DEFAULT_POSITIVE_INDICATORS DEFAULT_NEGATIVE_INDICATORS
            default_engagement default_satisfaction.

Definition set_engagement (h : InterruptionHandler) (e : EngagementState) : InterruptionHandler :=
  mkHandler (passive_acknowledgements h) (interrupt_commands h)
            (positive_indicators h) (negative_indicators h) e (satisfaction_state h).

Definition set_satisfaction (h : InterruptionHandler) (s : SatisfactionState) : InterruptionHandler :=
  mkHandler (passive_acknowledgements h) (interrupt_commands h)
            (positive_indicators h) (negative_indicators h) (engagement_state h) s.

(** [InterruptionHandler.classify]: returns the result and the handler
    after the call (its observational state possibly updated); logging is
    omitted. *)
Definition classify (h : InterruptionHandler) (now : Q) (text : string)
  (agent_is_speaking : bool) : InterruptionResult * InterruptionHandler :=
  let normalized := normalize_text text in
  if is_empty normalized then (mkResult IGNORE EmptyInput normalized [] [], h) else
  let '(has_interrupt, interrupt_matches) :=
    contains_any_phrase normalized (interrupt_commands h) in
  let '(has_ack, ack_matches) :=
    contains_any_phrase normalized (passive_acknowledgements h) in
  let is_only_ack := is_only_acknowledgements normalized (passive_acknowledgements h) in
  if negb agent_is_speaking then
    let s := sat_update text (positive_indicators h) (negative_indicators h)
                        (satisfaction_state h) in
    (mkResult PROCESS AgentSilent normalized interrupt_matches ack_matches,
     set_satisfaction h s)
  else if has_interrupt then
    (mkResult INTERRUPT (InterruptCommandDetected interrupt_matches) normalized
              interrupt_matches ack_matches, h)
  else if is_only_ack then
    let e1 := add_acknowledgement now (engagement_state h) in
    let '(_level, e2) := get_level now e1 in
    let '(_count, e3) := get_count now e2 in
    (mkResult IGNORE (PassiveAckOnly ack_matches) normalized [] ack_matches,
     set_engagement h e3)
  else
    (mkResult INTERRUPT NonAckContent normalized interrupt_matches ack_matches, h).

(* ------------------------------------------------------------------ *)
(** ** Auxiliary definitions used in the statements *)

(** Token-aligned occurrence: the tokens of [phrase] form a contiguous run
    of the tokens of [text]. *)
Fixpoint tokens_prefix (p l : list string) : bool :=
  match p, l with
  | [], _ => true
  | x :: p', y :: l' => String.eqb x y && tokens_prefix p' l'
  | _, _ => false
  end.

Fixpoint tokens_infix (p l : list string) : bool :=
  tokens_prefix p l || match l with [] => false | _ :: l' => tokens_infix p l' end.

Definition token_aligned (phrase text : string) : bool :=
  tokens_infix (str_split phrase) (tokenize text).

(** The calls a caller can make on a [SatisfactionState]. *)
Inductive SatOp :=
| OpUpdate (text : string) (positive negative : list string)
| OpDecay.

Definition sat_step (s : SatisfactionState) (op : SatOp) : SatisfactionState :=
  match op with
  | OpUpdate text pos neg => sat_update text pos neg s
  | OpDecay => sat_decay s
  end.

Definition sat_run (ops : list SatOp) (s : SatisfactionState) : SatisfactionState :=
  fold_left sat_step ops s.

(** Invariants of normalised text used in the idempotence proof. *)
Fixpoint all_chars (f : ascii -> bool) (s : string) : bool :=
  match s with
  | EmptyString => true
  | String c s' => f c && all_chars f s'
  end.

Fixpoint hyph_ok (prev_word : bool) (s : string) : bool :=
  match s with
  | EmptyString => true
  | String c s' =>
      (negb (is_hyphen c) || (prev_word && next_is_word s')) && hyph_ok (is_word c) s'
  end.

Fixpoint ws_ok (in_run : bool) (s : string) : bool :=
  match s with
  | EmptyString => true
  | String c s' =>
      if is_space c then Ascii.eqb c " " && negb in_run && ws_ok true s'
      else ws_ok false s'
  end.

Definition lower_fixed (c : ascii) : bool := Ascii.eqb (lower_char c) c.
Definition punct_kept (c : ascii) : bool := is_word c || is_space c || is_hyphen c.
Definition norm_char (c : ascii) : bool :=
  lower_fixed c && (is_word c || Ascii.eqb c " " || is_hyphen c).

(* ------------------------------------------------------------------ *)
(** ** Configuration loading, convenience methods and the demo's self-test *)

(** [str.split(sep)] with an explicit one-character separator: empty pieces
    are kept. *)
Fixpoint split_on_go (sep : ascii) (cur s : string) : list string :=
  match s with
  | EmptyString => [cur]
  | String c s' =>
      if Ascii.eqb c sep then cur :: split_on_go sep "" s'
      else split_on_go sep (cur ++ String c "") s'
  end.

Definition split_on (sep : ascii) (s : string) : list string := split_on_go sep "" s.

(** [set(...)] of a sequence: each element once, first occurrences kept. *)
Fixpoint to_set_go (acc l : list string) : list string :=
  match l with
  | [] => acc
  | x :: l' => to_set_go (if mem x acc then acc else (acc ++ [x])%list) l'
  end.

Definition to_set (l : list string) : list string := to_set_go [] l.

(** [_get_env_words]: [env_value] is [os.getenv(env_var)]. *)
Definition get_env_words (env_value : option string) (default : list string) : list string :=
  match env_value with
  | Some v =>
      if is_empty v then default
      else to_set (map (fun w => lower (strip w))
                       (filter (fun w => negb (is_empty (strip w))) (split_on ","%char v)))
  | None => default
  end.

(** [InterruptionHandler()]: [env] is the process environment. *)
Definition init_handler (env : string -> option string) : InterruptionHandler :=
  mkHandler (get_env_words (env "AGENT_PASSIVE_WORDS") DEFAULT_PASSIVE_ACKNOWLEDGEMENTS)
            (get_env_words (env "AGENT_INTERRUPT_WORDS") DEFAULT_INTERRUPT_COMMANDS)
            (get_env_words (env "AGENT_POSITIVE_WORDS") DEFAULT_POSITIVE_INDICATORS)
            (get_env_words (env "AGENT_NEGATIVE_WORDS") DEFAULT_NEGATIVE_INDICATORS)
            default_engagement default_satisfaction.

Definition decision_eqb (a b : InterruptionDecision) : bool :=
  match a, b with
  | IGNORE, IGNORE | INTERRUPT, INTERRUPT | PROCESS, PROCESS => true
  | _, _ => false
  end.

(** [InterruptionHandler.should_interrupt] *)
Definition should_interrupt (h : InterruptionHandler) (now : Q) (text : string)
  (agent_is_speaking : bool) : bool * InterruptionHandler :=
  let '(result, h') := classify h now text agent_is_speaking in
  (decision_eqb (decision result) INTERRUPT, h').

(** [InterruptionHandler.should_ignore] *)
Definition should_ignore (h : InterruptionHandler) (now : Q) (text : string)
  (agent_is_speaking : bool) : bool * InterruptionHandler :=
  let '(result, h') := classify h now text agent_is_speaking in
  (decision_eqb (decision result) IGNORE, h').

(** [InterruptionHandler.get_engagement_level] (prunes the timestamps). *)
Definition get_engagement_level (h : InterruptionHandler) (now : Q)
  : EngagementLevel * InterruptionHandler :=
  let '(level, e) := get_level now (engagement_state h) in
  (level, set_engagement h e).

(** [run_automated_tests] of [interactive_demo.py], without its printing:
    each case is (input, agent_speaking, expected_decision,
    expected_interrupt_signal). *)
Definition demo_test_cases : list (string * bool * InterruptionDecision * bool) :=
  [ ("yeah", true, IGNORE, false);
    ("hmm", true, IGNORE, false);
    ("mmmm", true, IGNORE, false);
    ("ok", true, IGNORE, false);
    ("uh-huh", true, IGNORE, false);
    ("right", true, IGNORE, false);
    ("yeah", false, PROCESS, false);
    ("hmm", false, PROCESS, false);
    ("stop", true, INTERRUPT, true);
    ("wait", true, INTERRUPT, true);
    ("hold on", true, INTERRUPT, true);
    ("stop talking", true, INTERRUPT, true);
    ("I have a question", true, INTERRUPT, true) ].

Fixpoint run_tests_go (h : InterruptionHandler) (now : Q)
  (cases : list (string * bool * InterruptionDecision * bool)) (all_passed : bool)
  : bool * InterruptionHandler :=
  match cases with
  | [] => (all_passed, h)
  | (user_input, agent_speaking, expected_decision, expected_signal) :: rest =>
      let '(result, h') := classify h now user_input agent_speaking in
      let interrupt_signal_emitted := decision_eqb (decision result) INTERRUPT in
      let decision_ok := decision_eqb (decision result) expected_decision in
      let signal_ok := Bool.eqb interrupt_signal_emitted expected_signal in
      run_tests_go h' now rest (all_passed && (decision_ok && signal_ok))
  end.

Definition run_automated_tests (h : InterruptionHandler) (now : Q) : bool * InterruptionHandler :=
  run_tests_go h now demo_test_cases true.

Example t1 : decision (fst (classify default_handler 0 "yeah" true)) = IGNORE. Proof. vm_compute. reflexivity. Qed.
Example t2 : decision (fst (classify default_handler 0 "stop" true)) = INTERRUPT. Proof. vm_compute. reflexivity. Qed.
Example t3 : decision (fst (classify default_handler 0 "yeah" false)) = PROCESS. Proof. vm_compute. reflexivity. Qed.
Example t4 : decision (fst (classify default_handler 0 "yeah okay but wait" true)) = INTERRUPT. Proof. vm_compute. reflexivity. Qed.
Example t5 : reason (fst (classify default_handler 0 "" true)) = EmptyInput. Proof. vm_compute. reflexivity. Qed.
Example t6 : reason (fst (classify default_handler 0 "hello there" true)) = NonAckContent. Proof. vm_compute. reflexivity. Qed.
Example t7 : decision (fst (classify default_handler 0 "uh huh, got it. okay" true)) = IGNORE. Proof. vm_compute. reflexivity. Qed.
Example t8 : fst (classify default_handler 0 "household only" true) = mkResult INTERRUPT (InterruptCommandDetected ["hold on"]) "household only" ["hold on"] []. Proof. vm_compute. reflexivity. Qed.

(* ------------------------------------------------------------------ *)
(** ** Normalisation lemmas *)

Ltac all_chars_cases c :=
  destruct c as [[] [] [] [] [] [] [] []]; vm_compute; reflexivity.

Lemma lower_char_idem (c : ascii) : lower_char (lower_char c) = lower_char c.
Proof. all_chars_cases c. Qed.

Lemma space_not_word (c : ascii) : is_space c && is_word c = false.
Proof. all_chars_cases c. Qed.

Lemma hyphen_not_word (c : ascii) : is_hyphen c && is_word c = false.
Proof. all_chars_cases c. Qed.

Lemma hyphen_not_space (c : ascii) : is_hyphen c && is_space c = false.
Proof. all_chars_cases c. Qed.

Lemma is_word_space_char (c : ascii) : is_space c = true -> is_word c = false.
Proof. intro H. pose proof (space_not_word c) as E. rewrite H in E. exact E. Qed.

Lemma is_word_hyphen_char (c : ascii) : is_hyphen c = true -> is_word c = false.
Proof. intro H. pose proof (hyphen_not_word c) as E. rewrite H in E. exact E. Qed.

Lemma all_chars_impl (f g : ascii -> bool) (s : string) :
  (forall c, f c = true -> g c = true) -> all_chars f s = true -> all_chars g s = true.
Proof.
  intros Hfg. induction s as [|c s IH]; simpl; auto.
  intros H. apply andb_true_iff in H as [H1 H2]. rewrite (Hfg c H1). simpl. auto.
Qed.

Lemma all_chars_lower (s : string) : all_chars lower_fixed (lower s) = true.
Proof.
  induction s as [|c s IH]; simpl; auto.
  unfold lower_fixed. rewrite lower_char_idem, Ascii.eqb_refl. exact IH.
Qed.

Lemma all_chars_lstrip f s : all_chars f s = true -> all_chars f (lstrip s) = true.
Proof.
  induction s as [|c s IH]; simpl; auto.
  intros H. destruct (is_space c); auto.
  apply andb_true_iff in H as [_ H]. auto.
Qed.

Lemma all_chars_rstrip f s : all_chars f s = true -> all_chars f (rstrip s) = true.
Proof.
  induction s as [|c s IH]; simpl; auto.
  intros H. apply andb_true_iff in H as [H1 H2].
  destruct (is_space c && is_empty (rstrip s)); simpl; auto.
  rewrite H1. auto.
Qed.

Lemma all_chars_strip f s : all_chars f s = true -> all_chars f (strip s) = true.
Proof. intro H. apply all_chars_rstrip, all_chars_lstrip, H. Qed.

Lemma all_chars_sub_punct s :
  all_chars lower_fixed s = true ->
  all_chars (fun c => lower_fixed c && punct_kept c) (sub_punct s) = true.
Proof.
  induction s as [|c s IH]; simpl; auto.
  intros H. apply andb_true_iff in H as [H1 H2].
  unfold punct_kept. destruct (is_word c || is_space c || is_hyphen c) eqn:E;
    simpl; rewrite ?H1, ?E; simpl; auto.
Qed.

Lemma all_chars_sub_hyphens p s :
  all_chars (fun c => lower_fixed c && punct_kept c) s = true ->
  all_chars (fun c => lower_fixed c && punct_kept c) (sub_hyphens p s) = true.
Proof.
  revert p. induction s as [|c s IH]; intros p; simpl; auto.
  intros H. apply andb_true_iff in H as [H1 H2].
  destruct (is_hyphen c && negb (p && next_is_word s)); simpl; rewrite ?H1; simpl; auto.
Qed.

Lemma all_chars_collapse q s :
  all_chars (fun c => lower_fixed c && punct_kept c) s = true ->
  all_chars norm_char (collapse_ws q s) = true.
Proof.
  revert q. induction s as [|c s IH]; intros q; simpl; auto.
  intros H. apply andb_true_iff in H as [H1 H2].
  destruct (is_space c) eqn:Es.
  - destruct q; simpl; auto.
  - simpl. rewrite IH by exact H2. rewrite andb_true_r.
    apply andb_true_iff in H1 as [H1 H3]. unfold norm_char. rewrite H1. simpl.
    unfold punct_kept in H3. rewrite Es, orb_false_r in H3.
    apply orb_true_iff in H3 as [H3|H3]; rewrite H3; simpl; auto using orb_true_r.
Qed.

Lemma is_word_sub_char (c : ascii) (b : bool) :
  is_word (if is_hyphen c && b then " "%char else c) = is_word c.
Proof.
  destruct (is_hyphen c) eqn:Eh; simpl; auto.
  destruct b; auto. rewrite (is_word_hyphen_char c Eh). reflexivity.
Qed.

Lemma next_is_word_sub_hyphens p s : next_is_word (sub_hyphens p s) = next_is_word s.
Proof. destruct s as [|c s]; simpl; auto using is_word_sub_char. Qed.

Lemma hyph_ok_sub_hyphens p s : hyph_ok p (sub_hyphens p s) = true.
Proof.
  revert p. induction s as [|c s IH]; intros p; simpl; auto.
  rewrite is_word_sub_char, IH, andb_true_r, next_is_word_sub_hyphens.
  destruct (is_hyphen c) eqn:Eh; simpl.
  - destruct (p && next_is_word s); simpl; auto using orb_true_r.
  - rewrite Eh. reflexivity.
Qed.

Lemma next_is_word_collapse s : next_is_word (collapse_ws false s) = next_is_word s.
Proof.
  destruct s as [|c s]; simpl; auto.
  destruct (is_space c) eqn:E; simpl; auto.
  rewrite (is_word_space_char c E). reflexivity.
Qed.

Lemma hyph_ok_collapse s p q :
  q && p = false -> hyph_ok p s = true -> hyph_ok p (collapse_ws q s) = true.
Proof.
  revert p q. induction s as [|c s IH]; intros p q Hqp H; simpl in *; auto.
  apply andb_true_iff in H as [H1 H2].
  destruct (is_space c) eqn:Es.
  - rewrite (is_word_space_char c Es) in H2.
    destruct q; simpl in Hqp.
    + subst p. apply IH; auto.
    + simpl. apply IH; auto.
  - simpl. rewrite next_is_word_collapse, H1. simpl. apply IH; auto.
Qed.

Lemma hyph_ok_lstrip s : hyph_ok false s = true -> hyph_ok false (lstrip s) = true.
Proof.
  induction s as [|c s IH]; simpl; auto.
  intros H. destruct (is_space c) eqn:Es; simpl; auto.
  apply andb_true_iff in H as [_ H]. rewrite (is_word_space_char c Es) in H. auto.
Qed.

Lemma next_is_word_rstrip s : next_is_word s = true -> next_is_word (rstrip s) = true.
Proof.
  destruct s as [|c s]; simpl; auto. intros H.
  pose proof (space_not_word c) as E. rewrite H, andb_true_r in E.
  rewrite E. simpl. exact H.
Qed.

Lemma hyph_ok_rstrip s p : hyph_ok p s = true -> hyph_ok p (rstrip s) = true.
Proof.
  revert p. induction s as [|c s IH]; intros p; simpl; auto.
  intros H. apply andb_true_iff in H as [H1 H2].
  destruct (is_space c && is_empty (rstrip s)); simpl; auto.
  rewrite IH by exact H2. rewrite andb_true_r.
  destruct (is_hyphen c); simpl in *; auto.
  apply andb_true_iff in H1 as [-> H1]. simpl. apply next_is_word_rstrip, H1.
Qed.

Lemma ws_ok_collapse q s : ws_ok q (collapse_ws q s) = true.
Proof.
  revert q. induction s as [|c s IH]; intros q; simpl; auto.
  destruct (is_space c) eqn:Es.
  - destruct q; simpl; auto.
  - simpl. rewrite Es. apply IH.
Qed.

Lemma ws_ok_lstrip q s : ws_ok q s = true -> ws_ok false (lstrip s) = true.
Proof.
  revert q. induction s as [|c s IH]; intros q; simpl; auto.
  destruct (is_space c) eqn:Es.
  - intros H. apply andb_true_iff in H as [_ H]. eauto.
  - simpl. rewrite Es. auto.
Qed.

Lemma ws_ok_rstrip q s : ws_ok q s = true -> ws_ok q (rstrip s) = true.
Proof.
  revert q. induction s as [|c s IH]; intros q; simpl; auto.
  intros H. destruct (is_space c && is_empty (rstrip s)); simpl; auto.
  destruct (is_space c).
  - apply andb_true_iff in H as [H1 H2]. rewrite H1. simpl. auto.
  - auto.
Qed.

Lemma lstrip_idem s : lstrip (lstrip s) = lstrip s.
Proof.
  induction s as [|c s IH]; simpl; auto.
  destruct (is_space c) eqn:Es; auto. simpl. rewrite Es. reflexivity.
Qed.

Lemma rstrip_idem s : rstrip (rstrip s) = rstrip s.
Proof.
  induction s as [|c s IH]; simpl; auto.
  destruct (is_space c && is_empty (rstrip s)) eqn:E; simpl; auto.
  rewrite IH, E. reflexivity.
Qed.

Lemma lstrip_rstrip_lstrip s : lstrip (rstrip (lstrip s)) = rstrip (lstrip s).
Proof.
  induction s as [|c s IH]; simpl; auto.
  destruct (is_space c) eqn:Es; auto. simpl. rewrite Es. simpl. rewrite Es. reflexivity.
Qed.

Lemma strip_idem s : strip (strip s) = strip s.
Proof. unfold strip. rewrite lstrip_rstrip_lstrip, rstrip_idem. reflexivity. Qed.

Lemma lower_id s : all_chars lower_fixed s = true -> lower s = s.
Proof.
  induction s as [|c s IH]; simpl; auto.
  intros H. apply andb_true_iff in H as [H1 H2]. unfold lower_fixed in H1.
  apply Ascii.eqb_eq in H1. rewrite H1, IH; auto.
Qed.

Lemma sub_punct_id s : all_chars punct_kept s = true -> sub_punct s = s.
Proof.
  induction s as [|c s IH]; simpl; auto.
  intros H. apply andb_true_iff in H as [H1 H2]. unfold punct_kept in H1.
  rewrite H1, IH; auto.
Qed.

Lemma sub_hyphens_id p s : hyph_ok p s = true -> sub_hyphens p s = s.
Proof.
  revert p. induction s as [|c s IH]; intros p; simpl; auto.
  intros H. apply andb_true_iff in H as [H1 H2].
  rewrite IH by exact H2.
  destruct (is_hyphen c); simpl in *; auto. rewrite H1. reflexivity.
Qed.

Lemma collapse_id q s : ws_ok q s = true -> collapse_ws q s = s.
Proof.
  revert q. induction s as [|c s IH]; intros q; simpl; auto.
  destruct (is_space c) eqn:Es.
  - intros H. apply andb_true_iff in H as [H H3]. apply andb_true_iff in H as [H1 H2].
    apply Ascii.eqb_eq in H1. subst c. destruct q; simpl in H2; try discriminate.
    rewrite IH; auto.
  - intros H. rewrite IH; auto.
Qed.

(** The invariants satisfied by every output of [normalize_text]. *)
Lemma normalize_text_shape (x : string) :
  let y := normalize_text x in
  all_chars norm_char y = true /\ hyph_ok false y = true /\ ws_ok false y = true
  /\ strip y = y.
Proof.
  cbv zeta. unfold normalize_text.
  destruct (is_empty x); [repeat split; reflexivity|].
  set (z := collapse_ws false (sub_hyphens false (sub_punct (strip (lower x))))).
  repeat split.
  - apply all_chars_strip. apply all_chars_collapse, all_chars_sub_hyphens,
      all_chars_sub_punct, all_chars_strip, all_chars_lower.
  - apply hyph_ok_rstrip, hyph_ok_lstrip. apply hyph_ok_collapse; [reflexivity|].
    apply hyph_ok_sub_hyphens.
  - apply ws_ok_rstrip. apply (ws_ok_lstrip false). apply ws_ok_collapse.
  - apply strip_idem.
Qed.

(** C8: text normalisation is idempotent. *)
Theorem normalize_text_idempotent (x : string) :
  normalize_text (normalize_text x) = normalize_text x.
Proof.
  destruct (normalize_text_shape x) as (Hc & Hh & Hw & Hs).
  set (y := normalize_text x) in *.
  unfold normalize_text at 1. destruct (is_empty y) eqn:Ey.
  - destruct y; [reflexivity|discriminate].
  - rewrite (lower_id y).
    2:{ apply (all_chars_impl norm_char); auto.
        intros c H. unfold norm_char in H. apply andb_true_iff in H as [H _]. exact H. }
    rewrite Hs, sub_punct_id.
    2:{ apply (all_chars_impl norm_char); auto.
        intros c H. unfold norm_char, punct_kept in *. apply andb_true_iff in H as [_ H].
        destruct (Ascii.eqb c " ") eqn:Ec.
        - apply Ascii.eqb_eq in Ec. subst c. reflexivity.
        - rewrite orb_false_r in H. apply orb_true_iff in H as [H|H]; rewrite H;
            auto using orb_true_r. }
    rewrite sub_hyphens_id by exact Hh. rewrite collapse_id by exact Hw. exact Hs.
Qed.

(* ------------------------------------------------------------------ *)
(** ** Lemmas about matching, the trackers and [classify] *)

Lemma is_empty_true s : is_empty s = true -> s = "".
Proof. destruct s; simpl; congruence. Qed.

Lemma is_empty_false s : s <> "" -> is_empty s = false.
Proof. destruct s; simpl; congruence. Qed.

Lemma contains_empty_text p : has_space p = true -> contains p "" = false.
Proof. destruct p; simpl; auto. Qed.

Lemma contains_any_phrase_found text phrases p :
  In p phrases ->
  (has_space p && contains p text) || (negb (has_space p) && mem p (tokenize text)) = true ->
  fst (contains_any_phrase text phrases) = true /\ In p (snd (contains_any_phrase text phrases)).
Proof.
  intros Hin Hm. unfold contains_any_phrase. cbn [fst snd].
  assert (Hp : In p (filter (fun phrase => has_space phrase && contains phrase text) phrases
                     ++ filter (fun phrase => negb (has_space phrase)
                                   && mem phrase (tokenize text)) phrases)%list).
  { apply in_or_app. apply orb_true_iff in Hm as [Hm|Hm];
      [left|right]; apply filter_In; auto. }
  split; auto.
  destruct (filter _ phrases ++ filter _ phrases)%list; [contradiction|reflexivity].
Qed.

Lemma filter_idem {A} (f : A -> bool) (l : list A) : filter f (filter f l) = filter f l.
Proof.
  induction l as [|a l IH]; simpl; auto.
  destruct (f a) eqn:E; simpl; rewrite ?E, IH; reflexivity.
Qed.

Lemma cleanup_old_idem now e : cleanup_old now (cleanup_old now e) = cleanup_old now e.
Proof. unfold cleanup_old. simpl. rewrite filter_idem. reflexivity. Qed.

Ltac classify_cases h text :=
  unfold classify;
  destruct (is_empty (normalize_text text)) eqn:Hempty;
  [| destruct (contains_any_phrase (normalize_text text) (interrupt_commands h))
       as [has_interrupt interrupt_matches] eqn:Hcmd;
     destruct (contains_any_phrase (normalize_text text) (passive_acknowledgements h))
       as [has_ack ack_matches] eqn:Hack ].

(** C1: while the agent speaks, any interrupt-command match in the normalised
    text makes [classify] return INTERRUPT, with a reason carrying the list
    of matched phrases (which contains the matching phrase); acknowledgement
    words elsewhere in the text make no difference, and no state changes. *)
Theorem classify_interrupt_command_wins (h : InterruptionHandler) (now : Q) (text p : string)
  (Hin : In p (interrupt_commands h))
  (Hmatch : (has_space p && contains p (normalize_text text))
            || (negb (has_space p) && mem p (tokenize (normalize_text text))) = true) :
  let '(r, h') := classify h now text true in
  decision r = INTERRUPT
  /\ reason r = InterruptCommandDetected (detected_commands r)
  /\ detected_commands r = snd (contains_any_phrase (normalize_text text) (interrupt_commands h))
  /\ In p (detected_commands r)
  /\ h' = h.
Proof.
  destruct (contains_any_phrase_found _ _ _ Hin Hmatch) as [Hf Hp].
  classify_cases h text.
  - apply is_empty_true in Hempty. rewrite Hempty in Hmatch.
    destruct (has_space p) eqn:Hs.
    + rewrite contains_empty_text in Hmatch by exact Hs. discriminate.
    + discriminate.
  - simpl in Hf, Hp. subst has_interrupt. simpl.
    repeat split; auto.
Qed.

(** C2: while the agent speaks, a non-empty normalised text with no
    interrupt-command match is IGNOREd exactly when the acknowledgement-only
    check holds; then one timestamp is recorded in the engagement tracker
    (appended, then the window pruned); otherwise the decision is INTERRUPT
    with reason "contains non-acknowledgement content" and nothing changes. *)
Theorem classify_speaking_without_command (h : InterruptionHandler) (now : Q) (text : string)
  (Hne : normalize_text text <> "")
  (Hno : fst (contains_any_phrase (normalize_text text) (interrupt_commands h)) = false) :
  let n := normalize_text text in
  let '(r, h') := classify h now text true in
  (decision r = IGNORE <-> is_only_acknowledgements n (passive_acknowledgements h) = true)
  /\ (if is_only_acknowledgements n (passive_acknowledgements h)
      then reason r = PassiveAckOnly (detected_acknowledgements r)
           /\ h' = set_engagement h (add_acknowledgement now (engagement_state h))
           /\ acknowledgement_timestamps (engagement_state h')
              = filter (fun t => negb (Qle_bool t (now - window_seconds (engagement_state h))))
                       (acknowledgement_timestamps (engagement_state h) ++ [now])
      else decision r = INTERRUPT /\ reason r = NonAckContent /\ h' = h).
Proof.
  cbv zeta. classify_cases h text.
  - apply is_empty_true in Hempty. contradiction.
  - simpl in Hno. subst has_interrupt. simpl.
    destruct (is_only_acknowledgements (normalize_text text) (passive_acknowledgements h))
      eqn:Ho; simpl.
    + unfold get_level, get_count. simpl.
      unfold add_acknowledgement. rewrite !cleanup_old_idem.
      repeat split; auto. simpl. rewrite !filter_idem. reflexivity.
    + repeat split; auto; discriminate.
Qed.

(** C3: while the agent is silent, a non-empty normalised text is PROCESSed
    with reason "agent is silent, processing normally"; the satisfaction
    tracker is updated with the raw text and the positive/negative
    vocabularies, and the command and acknowledgement matches are carried in
    the result without entering the decision. *)
Theorem classify_agent_silent (h : InterruptionHandler) (now : Q) (text : string)
  (Hne : normalize_text text <> "") :
  let n := normalize_text text in
  classify h now text false =
  (mkResult PROCESS AgentSilent n
            (snd (contains_any_phrase n (interrupt_commands h)))
            (snd (contains_any_phrase n (passive_acknowledgements h))),
   set_satisfaction h (sat_update text (positive_indicators h) (negative_indicators h)
                                  (satisfaction_state h))).
Proof.
  cbv zeta. classify_cases h text.
  - apply is_empty_true in Hempty. contradiction.
  - reflexivity.
Qed.

(** C4: a text that normalises to the empty string is IGNOREd with reason
    "empty input", whatever [agent_is_speaking] is, and the handler's state
    is left as it was. *)
Theorem classify_empty_input (h : InterruptionHandler) (now : Q) (text : string)
  (agent_is_speaking : bool) (He : normalize_text text = "") :
  classify h now text agent_is_speaking = (mkResult IGNORE EmptyInput "" [] [], h).
Proof. unfold classify. rewrite He. reflexivity. Qed.

(** C5: the engagement and satisfaction states never influence the result of
    [classify]: with the same vocabularies, text and flag, any two tracker
    states give the same result (decision, reason, normalised text and both
    match lists). *)
Theorem classify_result_independent_of_trackers
  (acks cmds pos neg : list string) (e1 e2 : EngagementState) (s1 s2 : SatisfactionState)
  (now : Q) (text : string) (agent_is_speaking : bool) :
  fst (classify (mkHandler acks cmds pos neg e1 s1) now text agent_is_speaking)
  = fst (classify (mkHandler acks cmds pos neg e2 s2) now text agent_is_speaking).
Proof.
  unfold classify. cbn [interrupt_commands passive_acknowledgements].
  destruct (is_empty (normalize_text text)); [reflexivity|].
  destruct (contains_any_phrase (normalize_text text) cmds) as [hi im].
  destruct (contains_any_phrase (normalize_text text) acks) as [ha am].
  destruct agent_is_speaking, hi, (is_only_acknowledgements (normalize_text text) acks);
    reflexivity.
Qed.

(** C7: frame condition of [classify]: the vocabularies never change; a call
    while the agent speaks leaves the satisfaction state alone and a call
    while it is silent leaves the engagement state alone; the satisfaction
    state changes only by [SatisfactionState.update] on the raw text of a
    silent-agent call with non-empty normalised text; the engagement state
    changes only by one [add_acknowledgement] on an acknowledgement-only
    IGNORE while the agent speaks. *)
Theorem classify_frame (h : InterruptionHandler) (now : Q) (text : string)
  (agent_is_speaking : bool) :
  let '(r, h') := classify h now text agent_is_speaking in
  passive_acknowledgements h' = passive_acknowledgements h
  /\ interrupt_commands h' = interrupt_commands h
  /\ positive_indicators h' = positive_indicators h
  /\ negative_indicators h' = negative_indicators h
  /\ (if agent_is_speaking then satisfaction_state h' = satisfaction_state h
      else engagement_state h' = engagement_state h)
  /\ (satisfaction_state h' = satisfaction_state h
      \/ (agent_is_speaking = false /\ normalize_text text <> ""
          /\ satisfaction_state h'
             = sat_update text (positive_indicators h) (negative_indicators h)
                          (satisfaction_state h)))
  /\ (engagement_state h' = engagement_state h
      \/ (agent_is_speaking = true /\ decision r = IGNORE
          /\ reason r = PassiveAckOnly (detected_acknowledgements r)
          /\ engagement_state h' = add_acknowledgement now (engagement_state h))).
Proof.
  classify_cases h text.
  - destruct agent_is_speaking; repeat split; auto.
  - assert (Hne : normalize_text text <> "").
    { intro E. rewrite E in Hempty. discriminate. }
    destruct agent_is_speaking; simpl.
    + destruct has_interrupt; simpl; [repeat split; auto|].
      destruct (is_only_acknowledgements (normalize_text text) (passive_acknowledgements h));
        simpl; [|repeat split; auto].
      unfold get_level, get_count, add_acknowledgement. simpl.
      rewrite !cleanup_old_idem. repeat split; auto.
    + repeat split; auto.
Qed.

Lemma Qle_bool_false_lt (a b : Q) : Qle_bool a b = false -> b < a.
Proof.
  intros E. apply Qnot_le_lt. intros H. apply Qle_bool_iff in H. congruence.
Qed.

Ltac qle_cases :=
  repeat match goal with
  | |- context [Qle_bool ?a ?b] =>
      let E := fresh "E" in
      destruct (Qle_bool a b) eqn:E;
      [apply Qle_bool_iff in E | apply Qle_bool_false_lt in E]
  end.

Lemma py_max_Qmax (a b : Q) : py_max a b == Qmax a b.
Proof.
  unfold py_max. qle_cases.
  - symmetry. apply Q.max_l. exact E.
  - symmetry. apply Q.max_r. apply Qlt_le_weak. exact E.
Qed.

Lemma py_min_Qmin (a b : Q) : py_min a b == Qmin a b.
Proof.
  unfold py_min. qle_cases.
  - symmetry. apply Q.min_l. exact E.
  - symmetry. apply Q.min_r. apply Qlt_le_weak. exact E.
Qed.

Lemma sat_update_bounded text pos neg s :
  -1 <= score s <= 1 -> -1 <= score (sat_update text pos neg s) <= 1.
Proof.
  intros [H1 H2]. unfold sat_update.
  destruct (intersects _ pos && negb (intersects _ neg)); simpl.
  - unfold py_min, POSITIVE_DELTA. qle_cases; simpl; lra.
  - destruct (intersects _ neg); simpl; [|lra].
    unfold py_max, NEGATIVE_DELTA. qle_cases; simpl; lra.
Qed.

Lemma sat_decay_bounded s : -1 <= score s <= 1 -> -1 <= score (sat_decay s) <= 1.
Proof.
  intros [H1 H2]. unfold sat_decay, py_max, py_min, DECAY_RATE. qle_cases; simpl; lra.
Qed.

Lemma sat_run_bounded ops s :
  -1 <= score s <= 1 -> -1 <= score (sat_run ops s) <= 1.
Proof.
  revert s. induction ops as [|op ops IH]; intros s Hs; simpl; auto.
  apply IH. destruct op; simpl; auto using sat_update_bounded, sat_decay_bounded.
Qed.

(** C6: starting from score 0, any sequence of [update] and [decay] calls
    (with any texts and vocabularies) keeps the satisfaction score in
    [-1.0, 1.0]. *)
Theorem satisfaction_score_bounded (ops : list SatOp) :
  -1 <= score (sat_run ops default_satisfaction) <= 1.
Proof. apply sat_run_bounded. simpl. lra. Qed.

(** C9, counterexample: at score 0.005 [decay] does not move the score toward
    zero; the guard [abs(self.score) > 0.01] leaves it unchanged. *)
Lemma sat_decay_dead_zone_counterexample :
  let s := mkSatisfaction (1 # 200) "" "" in
  ~ (score s == 0) /\ sat_decay s = s /\ ~ (Qabs (score (sat_decay s)) < Qabs (score s)).
Proof.
  cbv zeta. split; [|split].
  - simpl. lra.
  - reflexivity.
  - simpl. lra.
Qed.

(** C9, as amended: [decay] leaves a score of absolute value at most 0.01
    unchanged; above 0.01 it moves it toward zero by 0.05, clamped at zero
    ([max(0, score - 0.05)] or [min(0, score + 0.05)]); the signal fields are
    kept. [classify] never calls [decay]: after any call the satisfaction
    state is the old one or [update] applied to it. *)
Theorem sat_decay_step_and_classify_no_decay (s : SatisfactionState)
  (h : InterruptionHandler) (now : Q) (text : string) (agent_is_speaking : bool) :
  (last_signal (sat_decay s) = last_signal s /\ last_text (sat_decay s) = last_text s)
  /\ ((Qabs (score s) <= (1 # 100) /\ sat_decay s = s)
      \/ ((1 # 100) < score s /\ score (sat_decay s) == Qmax 0 (score s - (5 # 100)))
      \/ (score s < -(1 # 100) /\ score (sat_decay s) == Qmin 0 (score s + (5 # 100))))
  /\ (satisfaction_state (snd (classify h now text agent_is_speaking)) = satisfaction_state h
      \/ satisfaction_state (snd (classify h now text agent_is_speaking))
         = sat_update text (positive_indicators h) (negative_indicators h)
                      (satisfaction_state h)).
Proof.
  split; [|split].
  - unfold sat_decay. destruct (negb _); [destruct (negb _)|]; simpl; auto.
  - unfold sat_decay, DECAY_RATE.
    destruct (Qle_bool (Qabs (score s)) (1 # 100)) eqn:Ea; simpl.
    + left. apply Qle_bool_iff in Ea. auto.
    + apply Qle_bool_false_lt in Ea.
      destruct (Qle_bool (score s) 0) eqn:Es; simpl.
      * apply Qle_bool_iff in Es. right; right. split.
        -- rewrite Qabs_neg in Ea by exact Es. lra.
        -- apply py_min_Qmin.
      * apply Qle_bool_false_lt in Es. right; left. split.
        -- rewrite Qabs_pos in Ea by lra. exact Ea.
        -- apply py_max_Qmax.
  - classify_cases h text; [left; reflexivity|].
    destruct agent_is_speaking; simpl; [|right; reflexivity].
    destruct has_interrupt; simpl; [left; reflexivity|].
    destruct (is_only_acknowledgements _ _); simpl; left; reflexivity.
Qed.

(** C10: multi-word phrase matching is a plain substring test: in the
    normalised text "household only", where no phrase of any default
    vocabulary occurs aligned on tokens, the interrupt phrase "hold on" is
    matched (inside "household only") and [classify] interrupts while the
    agent speaks, whatever the tracker states. *)
Theorem multiword_match_not_token_aligned :
  exists text p,
    normalize_text text = text
    /\ forallb (fun q => negb (token_aligned q text))
         (DEFAULT_INTERRUPT_COMMANDS ++ DEFAULT_PASSIVE_ACKNOWLEDGEMENTS
          ++ DEFAULT_POSITIVE_INDICATORS ++ DEFAULT_NEGATIVE_INDICATORS)%list = true
    /\ has_space p = true
    /\ In p (snd (contains_any_phrase text DEFAULT_INTERRUPT_COMMANDS))
    /\ forall (e : EngagementState) (s : SatisfactionState) (now : Q),
         fst (classify (mkHandler DEFAULT_PASSIVE_ACKNOWLEDGEMENTS DEFAULT_INTERRUPT_COMMANDS
                                  DEFAULT_POSITIVE_INDICATORS DEFAULT_NEGATIVE_INDICATORS e s)
                       now text true)
         = mkResult INTERRUPT (InterruptCommandDetected [p]) text [p] [].
Proof.
  exists "household only", "hold on".
  split; [vm_compute; reflexivity|].
  split; [vm_compute; reflexivity|].
  split; [vm_compute; reflexivity|].
  split; [vm_compute; left; reflexivity|].
  intros e s now. vm_compute. reflexivity.
Qed.

(* ------------------------------------------------------------------ *)
(** ** Witnesses: the conditional theorems at concrete inputs *)

Lemma classify_interrupt_command_wins_witness :
  In "wait" (interrupt_commands default_handler)
  /\ (has_space "wait" && contains "wait" (normalize_text "Yeah, okay... but WAIT!"))
     || (negb (has_space "wait")
         && mem "wait" (tokenize (normalize_text "Yeah, okay... but WAIT!"))) = true
  /\ (let '(r, h') := classify default_handler 0 "Yeah, okay... but WAIT!" true in
      decision r = INTERRUPT
      /\ reason r = InterruptCommandDetected (detected_commands r)
      /\ detected_commands r
         = snd (contains_any_phrase (normalize_text "Yeah, okay... but WAIT!")
                                    (interrupt_commands default_handler))
      /\ In "wait" (detected_commands r)
      /\ h' = default_handler).
Proof.
  assert (Hin : In "wait" (interrupt_commands default_handler)).
  { vm_compute. right. left. reflexivity. }
  assert (Hm : (has_space "wait" && contains "wait" (normalize_text "Yeah, okay... but WAIT!"))
     || (negb (has_space "wait")
         && mem "wait" (tokenize (normalize_text "Yeah, okay... but WAIT!"))) = true).
  { vm_compute. reflexivity. }
  split; [exact Hin|]. split; [exact Hm|].
  exact (classify_interrupt_command_wins default_handler 0 "Yeah, okay... but WAIT!" "wait" Hin Hm).
Defined.

Lemma classify_speaking_without_command_witness :
  normalize_text "Uh huh, got it. Okay" <> ""
  /\ fst (contains_any_phrase (normalize_text "Uh huh, got it. Okay")
                              (interrupt_commands default_handler)) = false
  /\ (let n := normalize_text "Uh huh, got it. Okay" in
      let '(r, h') := classify default_handler 0 "Uh huh, got it. Okay" true in
      (decision r = IGNORE
       <-> is_only_acknowledgements n (passive_acknowledgements default_handler) = true)
      /\ (if is_only_acknowledgements n (passive_acknowledgements default_handler)
          then reason r = PassiveAckOnly (detected_acknowledgements r)
               /\ h' = set_engagement default_handler
                         (add_acknowledgement 0 (engagement_state default_handler))
               /\ acknowledgement_timestamps (engagement_state h')
                  = filter (fun t => negb (Qle_bool t (0 - window_seconds
                                                         (engagement_state default_handler))))
                           (acknowledgement_timestamps (engagement_state default_handler) ++ [0])
          else decision r = INTERRUPT /\ reason r = NonAckContent /\ h' = default_handler)).
Proof.
  assert (Hne : normalize_text "Uh huh, got it. Okay" <> "").
  { intro E. vm_compute in E. discriminate. }
  assert (Hno : fst (contains_any_phrase (normalize_text "Uh huh, got it. Okay")
                                         (interrupt_commands default_handler)) = false).
  { vm_compute. reflexivity. }
  split; [exact Hne|]. split; [exact Hno|].
  exact (classify_speaking_without_command default_handler 0 "Uh huh, got it. Okay" Hne Hno).
Defined.

Lemma classify_agent_silent_witness :
  normalize_text "Yeah!" <> ""
  /\ classify default_handler 0 "Yeah!" false =
     (mkResult PROCESS AgentSilent (normalize_text "Yeah!")
               (snd (contains_any_phrase (normalize_text "Yeah!")
                                         (interrupt_commands default_handler)))
               (snd (contains_any_phrase (normalize_text "Yeah!")
                                         (passive_acknowledgements default_handler))),
      set_satisfaction default_handler
        (sat_update "Yeah!" (positive_indicators default_handler)
                    (negative_indicators default_handler)
                    (satisfaction_state default_handler))).
Proof.
  assert (Hne : normalize_text "Yeah!" <> "").
  { intro E. vm_compute in E. discriminate. }
  split; [exact Hne|].
  exact (classify_agent_silent default_handler 0 "Yeah!" Hne).
Defined.

Lemma classify_empty_input_witness :
  normalize_text " ?! -- " = ""
  /\ classify default_handler 0 " ?! -- " false
     = (mkResult IGNORE EmptyInput "" [] [], default_handler).
Proof.
  assert (He : normalize_text " ?! -- " = "") by (vm_compute; reflexivity).
  split; [exact He|].
  exact (classify_empty_input default_handler 0 " ?! -- " false He).
Defined.

(* ------------------------------------------------------------------ *)
(** ** Further properties of the module *)

Lemma mem_In w l : mem w l = true <-> In w l.
Proof.
  unfold mem. rewrite existsb_exists. split.
  - intros (x & Hx & E). apply String.eqb_eq in E. subst. exact Hx.
  - intros H. exists w. split; auto. apply String.eqb_refl.
Qed.

Lemma all_chars_app f a b : all_chars f (a ++ b) = all_chars f a && all_chars f b.
Proof. induction a as [|c a IH]; simpl; auto. rewrite IH, andb_assoc. reflexivity. Qed.

Lemma prefixb_all_chars f p s :
  prefixb p s = true -> all_chars f s = true -> all_chars f p = true.
Proof.
  revert s. induction p as [|c p IH]; intros s; simpl; auto.
  destruct s as [|d s]; simpl; [discriminate|].
  intros H Hs. apply andb_true_iff in H as [E H]. apply Ascii.eqb_eq in E. subst d.
  apply andb_true_iff in Hs as [Hc Hs]. rewrite Hc. simpl. eauto.
Qed.

Lemma contains_all_chars f p s :
  contains p s = true -> all_chars f s = true -> all_chars f p = true.
Proof.
  induction s as [|c s IH]; simpl; intros H Hs.
  - rewrite orb_false_r in H. eapply prefixb_all_chars; [exact H|reflexivity].
  - apply orb_true_iff in H as [H|H].
    + eapply prefixb_all_chars; [exact H|exact Hs].
    + apply andb_true_iff in Hs as [_ Hs]. auto.
Qed.

Lemma split_go_all_chars f cur s w :
  all_chars (fun c => f c && negb (is_space c)) cur = true -> all_chars f s = true ->
  In w (split_go cur s) -> all_chars (fun c => f c && negb (is_space c)) w = true.
Proof.
  revert cur. induction s as [|c s IH]; intros cur Hcur Hs Hin; simpl in *.
  - destruct (is_empty cur); simpl in Hin; [contradiction|].
    destruct Hin as [<-|[]]; exact Hcur.
  - apply andb_true_iff in Hs as [Hc Hs].
    destruct (is_space c) eqn:Es.
    + destruct (is_empty cur).
      * apply (IH ""); [reflexivity|exact Hs|exact Hin].
      * destruct Hin as [<-|Hin]; [exact Hcur|]. apply (IH ""); [reflexivity|exact Hs|exact Hin].
    + apply (IH (cur ++ String c "")); [|exact Hs|exact Hin].
      rewrite all_chars_app, Hcur. simpl. rewrite Hc, Es. reflexivity.
Qed.

Lemma tokenize_all_chars f s w :
  all_chars f s = true -> In w (tokenize s) ->
  all_chars (fun c => f c && negb (is_space c)) w = true.
Proof.
  unfold tokenize, str_split. destruct (is_empty s); [intros _ []|].
  intros Hs Hin. apply (split_go_all_chars f "" s w); [reflexivity|exact Hs|exact Hin].
Qed.

Lemma str_split_all_chars f s w :
  all_chars f s = true -> In w (str_split s) ->
  all_chars (fun c => f c && negb (is_space c)) w = true.
Proof. intros Hs Hin. apply (split_go_all_chars f "" s w); [reflexivity|exact Hs|exact Hin]. Qed.

Lemma all_chars_true s : all_chars (fun _ => true) s = true.
Proof. induction s; simpl; auto. Qed.

(** A token of [str.split()] never contains a space. *)
Lemma str_split_no_space s w : In w (str_split s) -> has_space w = false.
Proof.
  intros Hin. pose proof (str_split_all_chars (fun _ => true) s w (all_chars_true s) Hin) as H.
  destruct (has_space w) eqn:E; auto.
  pose proof (contains_all_chars _ _ _ E H) as H'. vm_compute in H'. discriminate.
Qed.

Lemma contains_any_phrase_In text phrases p :
  In p (snd (contains_any_phrase text phrases))
  <-> In p phrases
      /\ (has_space p && contains p text) || (negb (has_space p) && mem p (tokenize text)) = true.
Proof.
  unfold contains_any_phrase. simpl. rewrite in_app_iff, !filter_In, orb_true_iff. tauto.
Qed.


Lemma normalize_text_chars x : all_chars norm_char (normalize_text x) = true.
Proof. apply (normalize_text_shape x). Qed.

Lemma unmatchable_not_in_matches x phrases p :
  all_chars norm_char p = false ->
  ~ In p (snd (contains_any_phrase (normalize_text x) phrases)).
Proof.
  intros Hp Hin. apply contains_any_phrase_In in Hin as [_ Hm].
  apply orb_true_iff in Hm as [Hm|Hm]; apply andb_true_iff in Hm as [_ Hm].
  - rewrite (contains_all_chars _ _ _ Hm (normalize_text_chars x)) in Hp. discriminate.
  - apply mem_In in Hm.
    pose proof (tokenize_all_chars _ _ _ (normalize_text_chars x) Hm) as H.
    assert (H' : all_chars norm_char p = true).
    { apply (all_chars_impl _ _ _ (fun c Hc => proj1 (proj1 (andb_true_iff _ _) Hc)) H). }
    congruence.
Qed.

Lemma mem_filter_no_space w l :
  has_space w = false -> mem w (filter (fun p => negb (has_space p)) l) = mem w l.
Proof.
  intros Hw. induction l as [|x l IH]; simpl; auto.
  destruct (String.eqb w x) eqn:E.
  - apply String.eqb_eq in E. subst x. rewrite Hw. simpl. rewrite String.eqb_refl. reflexivity.
  - destruct (negb (has_space x)); simpl; rewrite ?E; simpl; exact IH.
Qed.

Lemma intersects_filter_no_space words l :
  (forall w, In w words -> has_space w = false) ->
  intersects words (filter (fun p => negb (has_space p)) l) = intersects words l.
Proof.
  unfold intersects. induction words as [|w ws IH]; simpl; intros H; auto.
  rewrite mem_filter_no_space by auto. rewrite IH by auto. reflexivity.
Qed.


(** X2: a vocabulary phrase containing a character that normalisation never
    outputs (an apostrophe as in the default command "that's wrong", any
    punctuation, an upper-case letter) is never detected by [classify], as a
    command or as an acknowledgement, whatever the input. *)
Theorem classify_never_detects_unnormalised_phrase (h : InterruptionHandler) (now : Q)
  (x : string) (agent_is_speaking : bool) (p : string)
  (Hp : all_chars norm_char p = false) :
  ~ In p (detected_commands (fst (classify h now x agent_is_speaking)))
  /\ ~ In p (detected_acknowledgements (fst (classify h now x agent_is_speaking))).
Proof.
  pose proof (unmatchable_not_in_matches x (interrupt_commands h) p Hp) as Hc.
  pose proof (unmatchable_not_in_matches x (passive_acknowledgements h) p Hp) as Ha.
  classify_cases h x.
  - simpl. tauto.
  - simpl in Hc, Ha.
    destruct agent_is_speaking; simpl; [|tauto].
    destruct has_interrupt; simpl; [tauto|].
    destruct (is_only_acknowledgements _ _); simpl; tauto.
Qed.

(** X3: [SatisfactionState.update] compares single whitespace tokens only, so
    indicator phrases containing a space (the defaults "thank you" and
    "don't understand") never have any effect: dropping them from the
    vocabularies changes nothing. *)
Theorem sat_update_ignores_multiword_indicators (text : string)
  (positive_indicators negative_indicators : list string) (s : SatisfactionState) :
  sat_update text positive_indicators negative_indicators s
  = sat_update text (filter (fun p => negb (has_space p)) positive_indicators)
                    (filter (fun p => negb (has_space p)) negative_indicators) s.
Proof.
  unfold sat_update.
  rewrite !intersects_filter_no_space by (intros w Hw; eapply str_split_no_space; eauto).
  reflexivity.
Qed.

Lemma replace_go_absent old new s : contains old s = false -> replace_go old new 0 s = s.
Proof.
  induction s as [|c s IH]; simpl; auto.
  intros H. apply orb_false_iff in H as [H1 H2]. simpl in H1. rewrite H1, IH; auto.
Qed.

Lemma fold_replace_absent acks text :
  (forall p, In p acks -> has_space p = true -> contains p text = false) ->
  fold_left (fun remaining phrase =>
               if has_space phrase then str_replace phrase " " remaining else remaining)
            acks text = text.
Proof.
  induction acks as [|p acks IH]; simpl; intros H; auto.
  destruct (has_space p) eqn:Hs.
  - unfold str_replace.
    assert (Hne : is_empty p = false) by (destruct p; [discriminate|reflexivity]).
    rewrite Hne, replace_go_absent by (apply H; auto). apply IH. auto.
  - apply IH. auto.
Qed.

Lemma tokenize_no_space s w : In w (tokenize s) -> has_space w = false.
Proof.
  unfold tokenize. destruct (is_empty s); [intros []|]. apply str_split_no_space.
Qed.

Lemma is_only_acknowledgements_intro text acks :
  text <> "" ->
  (forall p, In p acks -> has_space p = true -> contains p text = false) ->
  (forall w, In w (tokenize text) -> In w acks) ->
  is_only_acknowledgements text acks = true.
Proof.
  intros Hne Hmulti Htok. unfold is_only_acknowledgements. cbv zeta.
  rewrite (is_empty_false _ Hne), fold_replace_absent by exact Hmulti.
  destruct (tokenize text) as [|w ws] eqn:Et; auto.
  apply forallb_forall. intros v Hv.
  rewrite mem_filter_no_space.
  - apply mem_In, Htok. exact Hv.
  - apply (tokenize_no_space text). rewrite Et. exact Hv.
Qed.

Lemma classify_ack_path h now x :
  normalize_text x <> "" ->
  fst (contains_any_phrase (normalize_text x) (interrupt_commands h)) = false ->
  is_only_acknowledgements (normalize_text x) (passive_acknowledgements h) = true ->
  classify h now x true =
  (mkResult IGNORE (PassiveAckOnly (snd (contains_any_phrase (normalize_text x)
                                                             (passive_acknowledgements h))))
            (normalize_text x) []
            (snd (contains_any_phrase (normalize_text x) (passive_acknowledgements h))),
   set_engagement h (add_acknowledgement now (engagement_state h))).
Proof.
  intros Hne Hno Hack. unfold classify.
  rewrite (is_empty_false _ Hne).
  destruct (contains_any_phrase (normalize_text x) (interrupt_commands h)) as [hi im].
  simpl in Hno. subst hi.
  destruct (contains_any_phrase (normalize_text x) (passive_acknowledgements h)) as [ha am].
  rewrite Hack. simpl. unfold get_level, get_count, add_acknowledgement. simpl.
  rewrite !cleanup_old_idem. reflexivity.
Qed.

(** X4: while the agent speaks, an utterance whose normalised text matches no
    interrupt command, contains no multi-word acknowledgement phrase, and
    consists only of tokens from the acknowledgement vocabulary is IGNOREd. *)
Theorem classify_ignores_plain_acknowledgements (h : InterruptionHandler) (now : Q) (x : string)
  (Hne : normalize_text x <> "")
  (Hno : fst (contains_any_phrase (normalize_text x) (interrupt_commands h)) = false)
  (Hmulti : forall p, In p (passive_acknowledgements h) -> has_space p = true ->
            contains p (normalize_text x) = false)
  (Htok : forall w, In w (tokenize (normalize_text x)) -> In w (passive_acknowledgements h)) :
  decision (fst (classify h now x true)) = IGNORE.
Proof.
  rewrite classify_ack_path; auto. apply is_only_acknowledgements_intro; auto.
Qed.

(** X5: the removal of multi-word acknowledgement phrases works on raw
    substrings, so it can cut through tokens: "umm hmmm" consists of two
    single-word acknowledgements and matches no command, yet removing
    "mm hmm" from it leaves "u m", and [classify] interrupts while the agent
    speaks, whatever the tracker states. *)
Theorem acknowledgement_removal_cuts_tokens :
  exists x,
    normalize_text x = x
    /\ forallb (fun w => mem w (filter (fun p => negb (has_space p))
                                       DEFAULT_PASSIVE_ACKNOWLEDGEMENTS))
               (tokenize x) = true
    /\ snd (contains_any_phrase x DEFAULT_INTERRUPT_COMMANDS) = []
    /\ forall (e : EngagementState) (s : SatisfactionState) (now : Q),
         decision (fst (classify (mkHandler DEFAULT_PASSIVE_ACKNOWLEDGEMENTS
                                            DEFAULT_INTERRUPT_COMMANDS
                                            DEFAULT_POSITIVE_INDICATORS
                                            DEFAULT_NEGATIVE_INDICATORS e s) now x true))
         = INTERRUPT
         /\ reason (fst (classify (mkHandler DEFAULT_PASSIVE_ACKNOWLEDGEMENTS
                                            DEFAULT_INTERRUPT_COMMANDS
                                            DEFAULT_POSITIVE_INDICATORS
                                            DEFAULT_NEGATIVE_INDICATORS e s) now x true))
         = NonAckContent.
Proof.
  exists "umm hmmm".
  split; [vm_compute; reflexivity|].
  split; [vm_compute; reflexivity|].
  split; [vm_compute; reflexivity|].
  intros e s now. split; vm_compute; reflexivity.
Qed.

Lemma normalize_text_idem_helper (x : string) :
  normalize_text (normalize_text x) = normalize_text x.
Proof.
  destruct (normalize_text_shape x) as (Hc & Hh & Hw & Hs).
  set (y := normalize_text x) in *.
  unfold normalize_text at 1. destruct (is_empty y) eqn:Ey.
  - destruct y; [reflexivity|discriminate].
  - rewrite (lower_id y) by
      (apply (all_chars_impl norm_char); auto;
       intros c H; unfold norm_char in H; apply andb_true_iff in H as [H _]; exact H).
    rewrite Hs, sub_punct_id.
    + rewrite sub_hyphens_id by exact Hh. rewrite collapse_id by exact Hw. exact Hs.
    + apply (all_chars_impl norm_char); auto.
      intros c H. unfold norm_char, punct_kept in *. apply andb_true_iff in H as [_ H].
      destruct (Ascii.eqb c " ") eqn:Ec.
      * apply Ascii.eqb_eq in Ec. subst c. reflexivity.
      * rewrite orb_false_r in H. apply orb_true_iff in H as [H|H]; rewrite H;
          auto using orb_true_r.
Qed.

(** X6: normalising the input beforehand changes nothing: [classify] on
    [_normalize_text(x)] returns the same result as on [x] and leaves the
    engagement state and the satisfaction score as the call on [x] does
    (only [last_text] records the text as given). *)
Theorem classify_prenormalised_input (h : InterruptionHandler) (now : Q) (x : string)
  (agent_is_speaking : bool) :
  fst (classify h now (normalize_text x) agent_is_speaking) = fst (classify h now x agent_is_speaking)
  /\ engagement_state (snd (classify h now (normalize_text x) agent_is_speaking))
     = engagement_state (snd (classify h now x agent_is_speaking))
  /\ score (satisfaction_state (snd (classify h now (normalize_text x) agent_is_speaking)))
     = score (satisfaction_state (snd (classify h now x agent_is_speaking)))
  /\ last_signal (satisfaction_state (snd (classify h now (normalize_text x) agent_is_speaking)))
     = last_signal (satisfaction_state (snd (classify h now x agent_is_speaking))).
Proof.
  unfold classify, sat_update. rewrite !normalize_text_idem_helper.
  destruct (is_empty (normalize_text x)); [repeat split|].
  destruct (contains_any_phrase (normalize_text x) (interrupt_commands h)) as [hi im].
  destruct (contains_any_phrase (normalize_text x) (passive_acknowledgements h)) as [ha am].
  destruct agent_is_speaking; simpl.
  - destruct hi; simpl; [repeat split|].
    destruct (is_only_acknowledgements _ _); simpl; repeat split.
  - destruct (_ && _); simpl; [repeat split|].
    destruct (intersects _ _); simpl; repeat split.
Qed.

(** X7: [should_interrupt] and [should_ignore] never both answer True for the
    same call from the same state; while the agent is silent
    [should_interrupt] is always False and [should_ignore] is True exactly
    for input that normalises to the empty string. *)
Theorem should_interrupt_should_ignore (h : InterruptionHandler) (now : Q) (x : string)
  (agent_is_speaking : bool) :
  fst (should_interrupt h now x agent_is_speaking) && fst (should_ignore h now x agent_is_speaking)
  = false
  /\ fst (should_interrupt h now x false) = false
  /\ fst (should_ignore h now x false) = is_empty (normalize_text x).
Proof.
  unfold should_interrupt, should_ignore.
  split; [|split].
  - classify_cases h x; [reflexivity|].
    destruct agent_is_speaking; simpl; [|reflexivity].
    destruct has_interrupt; simpl; [reflexivity|].
    destruct (is_only_acknowledgements _ _); reflexivity.
  - classify_cases h x; reflexivity.
  - classify_cases h x; reflexivity.
Qed.

(** X8: the decisions of [classify] at a glance: PROCESS exactly when the
    agent is silent and the normalised text is non-empty; INTERRUPT only
    while the agent speaks; an IGNORE result never lists detected commands;
    the result always carries [_normalize_text(text)]. *)
Theorem classify_decision_table (h : InterruptionHandler) (now : Q) (x : string)
  (agent_is_speaking : bool) :
  let r := fst (classify h now x agent_is_speaking) in
  (decision r = PROCESS <-> agent_is_speaking = false /\ normalize_text x <> "")
  /\ (agent_is_speaking = true \/ decision r <> INTERRUPT)
  /\ (decision r <> IGNORE \/ detected_commands r = [])
  /\ normalized_text r = normalize_text x.
Proof.
  cbv zeta. classify_cases h x.
  - apply is_empty_true in Hempty. simpl. rewrite Hempty.
    repeat split; try discriminate; auto.
    + intros [_ H]. contradiction.
    + destruct agent_is_speaking; [left|right]; auto; discriminate.
  - assert (Hne : normalize_text x <> "").
    { intro E. rewrite E in Hempty. discriminate. }
    destruct agent_is_speaking; [destruct has_interrupt;
      [|destruct (is_only_acknowledgements (normalize_text x) (passive_acknowledgements h))]|];
      cbn [fst negb decision detected_commands normalized_text];
      repeat split; auto; try discriminate; try (intros [H _]; discriminate);
      try solve [left; discriminate | right; reflexivity | right; discriminate].
Qed.

Lemma classify_never_detects_unnormalised_phrase_witness :
  all_chars norm_char "that's wrong" = false
  /\ ~ In "that's wrong" (detected_commands (fst (classify default_handler 0 "that's wrong" true)))
  /\ ~ In "that's wrong"
       (detected_acknowledgements (fst (classify default_handler 0 "that's wrong" true))).
Proof.
  assert (Hp : all_chars norm_char "that's wrong" = false) by (vm_compute; reflexivity).
  split; [exact Hp|].
  exact (classify_never_detects_unnormalised_phrase default_handler 0 "that's wrong" true
           "that's wrong" Hp).
Defined.

Lemma classify_ignores_plain_acknowledgements_witness :
  normalize_text "Yeah, ok!" <> ""
  /\ decision (fst (classify default_handler 0 "Yeah, ok!" true)) = IGNORE.
Proof.
  assert (Hne : normalize_text "Yeah, ok!" <> "") by (intro E; vm_compute in E; discriminate E).
  split; [exact Hne|].
  apply (classify_ignores_plain_acknowledgements default_handler 0 "Yeah, ok!" Hne).
  - vm_compute. reflexivity.
  - intros p Hp Hs.
    assert (Hall : forallb (fun p => negb (has_space p) || negb (contains p (normalize_text "Yeah, ok!")))
                     (passive_acknowledgements default_handler) = true)
      by (vm_compute; reflexivity).
    rewrite forallb_forall in Hall. specialize (Hall p Hp).
    rewrite Hs in Hall. simpl in Hall. apply negb_true_iff in Hall. exact Hall.
  - intros w Hw. apply mem_In.
    assert (Hall : forallb (fun w => mem w (passive_acknowledgements default_handler))
                     (tokenize (normalize_text "Yeah, ok!")) = true)
      by (vm_compute; reflexivity).
    rewrite forallb_forall in Hall. exact (Hall w Hw).
Defined.

(** X9: dropping expired timestamps at an earlier instant and then at a
    later one is the same as dropping them at the later one only: repeated
    [_cleanup_old] calls as the clock advances lose nothing a single call
    would keep. *)
Theorem cleanup_old_compose (t1 t2 : Q) (e : EngagementState) (H : t1 <= t2) :
  cleanup_old t2 (cleanup_old t1 e) = cleanup_old t2 e.
Proof.
  unfold cleanup_old. simpl. f_equal.
  induction (acknowledgement_timestamps e) as [|t l IH]; simpl; auto.
  destruct (Qle_bool t (t1 - window_seconds e)) eqn:E1; simpl.
  - destruct (Qle_bool t (t2 - window_seconds e)) eqn:E2; simpl; [exact IH|].
    apply Qle_bool_iff in E1. apply Qle_bool_false_lt in E2. lra.
  - destruct (Qle_bool t (t2 - window_seconds e)); simpl; rewrite IH; reflexivity.
Qed.

Lemma cleanup_old_compose_witness :
  cleanup_old 14 (cleanup_old 10 (mkEngagement [1; 5; 9] 8))
  = cleanup_old 14 (mkEngagement [1; 5; 9] 8).
Proof.
  apply (cleanup_old_compose 10 14 (mkEngagement [1; 5; 9] 8)).
  apply Qle_bool_iff. vm_compute. reflexivity.
Defined.

Lemma filter_keep_suffix (P : Q -> bool) (l s : list Q) :
  (forall t, In t s -> P t = true) -> filter P (l ++ s) = (filter P l ++ s)%list.
Proof.
  intros H. rewrite filter_app. f_equal.
  induction s as [|a s IH]; simpl; auto.
  rewrite (H a) by (left; reflexivity). f_equal. apply IH. intros t Ht. apply H. right. exact Ht.
Qed.

Lemma keep_after_cutoff (t now w : Q) : now - w < t -> negb (Qle_bool t (now - w)) = true.
Proof.
  intros H. destruct (Qle_bool t (now - w)) eqn:E; [|reflexivity].
  apply Qle_bool_iff in E. lra.
Qed.

(** X10: three acknowledgements recorded at [t1 <= t2 <= t3], all within one
    window of [t3], make [get_level] at [t3] report HIGH, whatever
    timestamps the state held before. *)
Theorem engagement_three_acks_high (e : EngagementState) (t1 t2 t3 : Q)
  (H12 : t1 <= t2) (H23 : t2 <= t3) (Hw : t3 - window_seconds e < t1) :
  fst (get_level t3 (add_acknowledgement t3 (add_acknowledgement t2 (add_acknowledgement t1 e))))
  = HIGH.
Proof.
  unfold get_level, add_acknowledgement, cleanup_old. cbn zeta.
  cbn [acknowledgement_timestamps window_seconds].
  rewrite (filter_keep_suffix _ _ [t1]) by
    (intros t Ht; destruct Ht as [<-|[]]; apply keep_after_cutoff; lra).
  rewrite <- app_assoc. cbn [app].
  rewrite (filter_keep_suffix _ _ [t1; t2]) by
    (intros t Ht; destruct Ht as [<-|[<-|[]]]; apply keep_after_cutoff; lra).
  rewrite <- app_assoc. cbn [app].
  rewrite (filter_keep_suffix _ _ [t1; t2; t3]) by
    (intros t Ht; destruct Ht as [<-|[<-|[<-|[]]]]; apply keep_after_cutoff; lra).
  rewrite (filter_keep_suffix _ _ [t1; t2; t3]) by
    (intros t Ht; destruct Ht as [<-|[<-|[<-|[]]]]; apply keep_after_cutoff; lra).
  rewrite length_app. rewrite PeanoNat.Nat.add_comm. reflexivity.
Qed.

Lemma engagement_three_acks_high_witness :
  fst (get_level 7 (add_acknowledgement 7 (add_acknowledgement 3 (add_acknowledgement 1
        (mkEngagement [0; 2] 8))))) = HIGH.
Proof.
  apply (engagement_three_acks_high (mkEngagement [0; 2] 8) 1 3 7);
    apply Qle_bool_iff || apply Qlt_bool_iff || idtac; vm_compute; reflexivity.
Defined.

(** X11: with the default vocabularies, every case of the demo's
    [run_automated_tests] passes (decision and interrupt signal as expected),
    whatever engagement and satisfaction state the handler carries in and
    whatever the clock reads. *)
Theorem run_automated_tests_pass (e : EngagementState) (s : SatisfactionState) (now : Q) :
  fst (run_automated_tests
         (mkHandler DEFAULT_PASSIVE_ACKNOWLEDGEMENTS DEFAULT_INTERRUPT_COMMANDS
                    DEFAULT_POSITIVE_INDICATORS DEFAULT_NEGATIVE_INDICATORS e s) now) = true.
Proof. vm_compute. reflexivity. Qed.

Lemma is_space_lower_char (c : ascii) : is_space (lower_char c) = is_space c.
Proof. all_chars_cases c. Qed.

Lemma lstrip_lower s : lstrip (lower s) = lower (lstrip s).
Proof.
  induction s as [|c s IH]; simpl; auto.
  rewrite is_space_lower_char. destruct (is_space c); auto.
Qed.

Lemma is_empty_lower s : is_empty (lower s) = is_empty s.
Proof. destruct s; reflexivity. Qed.

Lemma rstrip_lower s : rstrip (lower s) = lower (rstrip s).
Proof.
  induction s as [|c s IH]; simpl; auto.
  rewrite IH, is_space_lower_char, is_empty_lower.
  destruct (is_space c && is_empty (rstrip s)); reflexivity.
Qed.

Lemma lower_idem s : lower (lower s) = lower s.
Proof. induction s as [|c s IH]; simpl; auto. rewrite lower_char_idem, IH. reflexivity. Qed.

Lemma to_set_go_In acc l w : In w (to_set_go acc l) -> In w acc \/ In w l.
Proof.
  revert acc. induction l as [|x l IH]; simpl; intros acc H; auto.
  destruct (IH _ H) as [H'|H']; [|tauto].
  destruct (mem x acc); [tauto|].
  apply in_app_or in H' as [H'|[<-|[]]]; tauto.
Qed.

(** X12: when the environment variable is set to a non-empty value, every
    word [_get_env_words] returns is non-empty, has no surrounding
    whitespace and is lower case, so it survives [.strip().lower()] as is. *)
Theorem get_env_words_entries (v : string) (default : list string) (w : string)
  (Hv : v <> "") (Hw : In w (get_env_words (Some v) default)) :
  w <> "" /\ strip w = w /\ lower w = w.
Proof.
  simpl in Hw. rewrite is_empty_false in Hw by exact Hv.
  apply to_set_go_In in Hw as [[]|Hw].
  apply in_map_iff in Hw as (u & <- & Hu). apply filter_In in Hu as [_ Hu].
  split; [|split].
  - destruct (strip u); [discriminate|discriminate].
  - unfold strip at 1. rewrite lstrip_lower, rstrip_lower. fold (strip (strip u)).
    rewrite strip_idem. reflexivity.
  - apply lower_idem.
Qed.

Lemma get_env_words_entries_witness :
  " Stop , WAIT,,  ,stop" <> "" /\ In "stop" (get_env_words (Some " Stop , WAIT,,  ,stop") [])
  /\ ("stop" <> "" /\ strip "stop" = "stop" /\ lower "stop" = "stop").
Proof.
  assert (Hv : " Stop , WAIT,,  ,stop" <> "") by discriminate.
  assert (Hw : In "stop" (get_env_words (Some " Stop , WAIT,,  ,stop") []))
    by (apply mem_In; vm_compute; reflexivity).
  split; [exact Hv|]. split; [exact Hw|].
  exact (get_env_words_entries " Stop , WAIT,,  ,stop" [] "stop" Hv Hw).
Defined.

Lemma split_on_go_spaces sep cur s :
  all_chars is_space cur = true ->
  all_chars (fun c => is_space c || Ascii.eqb c sep) s = true ->
  forall w, In w (split_on_go sep cur s) -> all_chars is_space w = true.
Proof.
  revert cur. induction s as [|c s IH]; simpl; intros cur Hcur Hs w Hw.
  - destruct Hw as [<-|[]]. exact Hcur.
  - apply andb_true_iff in Hs as [Hc Hs].
    destruct (Ascii.eqb c sep) eqn:E.
    + destruct Hw as [<-|Hw]; [exact Hcur|]. apply (IH "" eq_refl Hs w Hw).
    + rewrite orb_false_r in Hc. apply (IH (cur ++ String c "")); auto.
      rewrite all_chars_app, Hcur. simpl. rewrite Hc. reflexivity.
Qed.

Lemma strip_spaces w : all_chars is_space w = true -> strip w = "".
Proof.
  intros H. unfold strip. replace (lstrip w) with ""; [reflexivity|].
  induction w as [|c w IH]; simpl in *; auto.
  apply andb_true_iff in H as [Hc H]. rewrite Hc. auto.
Qed.

(** X13: a non-empty value made only of whitespace and commas does not fall
    back to the default: [_get_env_words] returns the empty set, so for
    example [AGENT_INTERRUPT_WORDS=" "] leaves the handler with no interrupt
    commands at all. *)
Theorem get_env_words_separators_only (v : string) (default : list string)
  (Hv : v <> "") (Hsep : all_chars (fun c => is_space c || Ascii.eqb c ",") v = true) :
  get_env_words (Some v) default = []
  /\ forall env, env "AGENT_INTERRUPT_WORDS" = Some v -> interrupt_commands (init_handler env) = [].
Proof.
  assert (Hg : forall d, get_env_words (Some v) d = []).
  { intros d. simpl. rewrite is_empty_false by exact Hv.
    assert (Hall : forall w, In w (split_on "," v) -> strip w = "").
    { intros w Hw. apply strip_spaces. exact (split_on_go_spaces "," "" v eq_refl Hsep w Hw). }
    induction (split_on "," v) as [|a l IH]; [reflexivity|].
    simpl. rewrite (Hall a) by (left; reflexivity). simpl.
    apply IH. intros w Hw. apply Hall. right. exact Hw. }
  split; [apply Hg|].
  intros env Henv. unfold init_handler. cbn [interrupt_commands]. rewrite Henv. apply Hg.
Qed.

Lemma get_env_words_separators_only_witness :
  get_env_words (Some " , ,") DEFAULT_INTERRUPT_COMMANDS = []
  /\ interrupt_commands
       (init_handler (fun k => if String.eqb k "AGENT_INTERRUPT_WORDS" then Some " , ," else None))
     = [].
Proof.
  assert (Hv : " , ," <> "") by discriminate.
  assert (Hs : all_chars (fun c => is_space c || Ascii.eqb c ",") " , ," = true)
    by (vm_compute; reflexivity).
  destruct (get_env_words_separators_only " , ," DEFAULT_INTERRUPT_COMMANDS Hv Hs) as [H1 H2].
  split; [exact H1|]. apply H2. reflexivity.
Defined.

(** X14: [SatisfactionState.decay] moves the score toward zero without ever
    crossing it: a non-negative score stays between 0 and its old value, a
    non-positive one between its old value and 0. *)
Theorem sat_decay_toward_zero (s : SatisfactionState) :
  (0 <= score s -> 0 <= score (sat_decay s) <= score s)
  /\ (score s <= 0 -> score s <= score (sat_decay s) <= 0).
Proof.
  unfold sat_decay, py_max, py_min, DECAY_RATE. qle_cases; simpl; split; intros; lra.
Qed.

(** X15: in [SatisfactionState.update] a negative indicator wins over any
    positive one in the same utterance: the signal is "negative", the text is
    recorded and the score (taken within its range) does not go up. *)
Theorem sat_update_negative_wins (text : string)
  (positive_indicators negative_indicators : list string) (s : SatisfactionState)
  (Hneg : intersects (str_split (normalize_text text)) negative_indicators = true)
  (Hs : -1 <= score s) :
  score (sat_update text positive_indicators negative_indicators s) <= score s
  /\ last_signal (sat_update text positive_indicators negative_indicators s) = "negative"
  /\ last_text (sat_update text positive_indicators negative_indicators s) = text.
Proof.
  unfold sat_update. cbv zeta. rewrite Hneg, andb_false_r.
  cbn [score last_signal last_text]. split; [|split; reflexivity].
  unfold py_max, NEGATIVE_DELTA. qle_cases; lra.
Qed.

Lemma sat_update_negative_wins_witness :
  score (sat_update "Yes, great, but that is wrong." DEFAULT_POSITIVE_INDICATORS
           DEFAULT_NEGATIVE_INDICATORS default_satisfaction) <= score default_satisfaction
  /\ last_signal (sat_update "Yes, great, but that is wrong." DEFAULT_POSITIVE_INDICATORS
                   DEFAULT_NEGATIVE_INDICATORS default_satisfaction) = "negative"
  /\ last_text (sat_update "Yes, great, but that is wrong." DEFAULT_POSITIVE_INDICATORS
                 DEFAULT_NEGATIVE_INDICATORS default_satisfaction)
     = "Yes, great, but that is wrong.".
Proof.
  apply sat_update_negative_wins.
  - vm_compute. reflexivity.
  - apply Qle_bool_iff. vm_compute. reflexivity.
Defined.
